(** * qa-system: document ingestion and answer localisation

    A shallow embedding of [src/utils.py] (text extraction and truncation)
    and of the question handler of [app/streamlit_app.py] (input validation,
    oracle call, answer highlighting), with the properties stated for them. *)

From Stdlib Require Import String Ascii.
From Stdlib Require Import List ZArith NArith Lia Bool.
From Stdlib Require Import DecimalString.
Import ListNotations.

Set Implicit Arguments.
Open Scope Z_scope.

(** ** Python values *)

Module Py.

(** A Python [str] is a sequence of Unicode code points. *)
Definition char := N.
Definition str := list char.

(** An ASCII literal of the source, as code points. *)
Definition lit (s : string) : str := map N_of_ascii (list_ascii_of_string s).
Arguments lit s%_string.

Definition len (s : str) : Z := Z.of_nat (length s).

(** [s[start:stop]] with step 1: a negative index counts from the end, and
    both indices are clamped to [0, len s]. [None] is an omitted index. *)
Definition clamp_index (n i : Z) : Z :=
  if i <? 0 then Z.max 0 (i + n) else Z.min i n.

Definition slice (s : str) (start stop : option Z) : str :=
  let n := len s in
  let lo := match start with None => 0 | Some i => clamp_index n i end in
  let hi := match stop with None => n | Some j => clamp_index n j end in
  firstn (Z.to_nat (hi - lo)) (skipn (Z.to_nat lo) s).

(** [str(n)] / [f"{n}"] for an [int]. *)
Definition str_of_int (n : Z) : str := lit (NilZero.string_of_int (Z.to_int n)).

(** [sub] occurs in [s] at its very beginning. *)
Fixpoint starts_with (sub s : str) : bool :=
  match sub, s with
  | [], _ => true
  | _ :: _, [] => false
  | a :: sub', b :: s' => N.eqb a b && starts_with sub' s'
  end.

(** [s.find(sub)]: the lowest index at which [sub] occurs, [-1] if none. *)
Fixpoint find_from (i : Z) (s sub : str) : Z :=
  if starts_with sub s then i
  else match s with
       | [] => -1
       | _ :: s' => find_from (i + 1) s' sub
       end.

Definition find (s sub : str) : Z := find_from 0 s sub.

Definition str_eqb (a b : str) : bool :=
  if list_eq_dec N.eq_dec a b then true else false.

(** [c.isspace()]: the code points Python treats as whitespace. *)
Definition isspace (c : char) : bool :=
  ((9 <=? c) && (c <=? 13) || (28 <=? c) && (c <=? 32)
   || (c =? 133) || (c =? 160) || (c =? 5760)
   || (8192 <=? c) && (c <=? 8202)
   || (c =? 8232) || (c =? 8233) || (c =? 8239) || (c =? 8287)
   || (c =? 12288))%N.

Fixpoint lstrip (s : str) : str :=
  match s with
  | c :: s' => if isspace c then lstrip s' else s
  | [] => []
  end.

Definition rstrip (s : str) : str := rev (lstrip (rev s)).

(** [s.strip()] *)
Definition strip (s : str) : str := rstrip (lstrip s).

(** [s.split(sep)] for a one-character separator: never an empty list. *)
Fixpoint split (sep : char) (s : str) : list str :=
  match s with
  | [] => [[]]
  | c :: s' =>
      if N.eqb c sep then [] :: split sep s'
      else match split sep s' with
           | w :: ws => (c :: w) :: ws
           | [] => [[c]]
           end
  end.

(** [s.split()]: the maximal runs of non-whitespace characters, in order;
    [word] holds the characters of the current run, last one first. *)
Fixpoint split_words (word : str) (s : str) : list str :=
  match s with
  | [] => match word with [] => [] | _ :: _ => [rev word] end
  | c :: s' =>
      if isspace c then
        match word with
        | [] => split_words [] s'
        | _ :: _ => rev word :: split_words [] s'
        end
      else split_words (c :: word) s'
  end.

Definition split_whitespace (s : str) : list str := split_words [] s.

(** The result of a call: a value, or a raised exception of class
    [Exception], kept as the text [str(e)] the handlers print. *)
Inductive outcome (A : Type) : Type :=
| Return (a : A)
| Raise (e : str).
Arguments Return {A} a.
Arguments Raise {A} e.

Definition bind {A B : Type} (m : outcome A) (k : A -> outcome B) : outcome B :=
  match m with
  | Return a => k a
  | Raise e => Raise e
  end.

(** [try: body except Exception as e: handler(e)] *)
Definition try_except {A : Type} (body : outcome A) (handler : str -> outcome A)
  : outcome A :=
  match body with
  | Return a => Return a
  | Raise e => handler e
  end.

(** [l[-1]] *)
Definition last_item {A : Type} (l : list A) : outcome A :=
  match rev l with
  | x :: _ => Return x
  | [] => Raise (lit "list index out of range")
  end.

Definition is_ascii (c : char) : bool := (c <? 128)%N.

Definition ascii_lower (c : char) : char :=
  if ((65 <=? c) && (c <=? 90))%N then (c + 32)%N else c.

(** [str.lower] is the interpreter's Unicode lowercasing; the development
    relies on it only through its behaviour on ASCII text, where it maps
    [A-Z] to [a-z] character by character. *)
Class Lowercase : Type := {
  lower : str -> str;
  lower_ascii : forall s, forallb is_ascii s = true -> lower s = map ascii_lower s
}.

End Py.
Import Py.

Declare Scope outcome_scope.
Delimit Scope outcome_scope with outcome.
Notation "x <- m ;; k" := (bind m (fun x => k))
  (at level 61, m at next level, right associativity) : outcome_scope.
Open Scope outcome_scope.

(** ** The external decoders *)

Definition bytes := list Byte.byte.

(** What [src/utils.py] imports: [PyPDF2.PdfReader(file).pages] with
    [page.extract_text()] for each page, [docx.Document(file).paragraphs]
    with [paragraph.text] for each paragraph, and [bytes.decode('utf-8')].
    Opening the document may raise, and so may each page or paragraph. *)
Class Decoders : Type := {
  PdfReader_pages : bytes -> outcome (list (outcome str));
  Document_paragraphs : bytes -> outcome (list (outcome str));
  decode_utf8 : bytes -> outcome str
}.

(** ** src/utils.py: extraction *)

Section Utils.
Context {L : Lowercase} {D : Decoders}.

(** [text = ""; for item in items: text += item + "\n"], where reading an
    item may raise and then ends the loop. *)
Fixpoint append_lines (text : str) (items : list (outcome str)) : outcome str :=
  match items with
  | [] => Return text
  | item :: rest => t <- item ;; append_lines (text ++ t ++ [10%N]) rest
  end.

(** The [try] blocks of the three extractors. *)
Definition pdf_body (file : bytes) : outcome str :=
  pages <- PdfReader_pages file ;;
  text <- append_lines [] pages ;;
  Return (strip text).

Definition docx_body (file : bytes) : outcome str :=
  paragraphs <- Document_paragraphs file ;;
  text <- append_lines [] paragraphs ;;
  Return (strip text).

Definition txt_body (file : bytes) : outcome str :=
  text <- decode_utf8 file ;;
  Return (strip text).

Definition extract_text_from_pdf (file : bytes) : outcome str :=
  try_except (pdf_body file) (fun e => Return (lit "Error reading PDF: " ++ e)).

Definition extract_text_from_docx (file : bytes) : outcome str :=
  try_except (docx_body file) (fun e => Return (lit "Error reading DOCX: " ++ e)).

Definition extract_text_from_txt (file : bytes) : outcome str :=
  try_except (txt_body file) (fun e => Return (lit "Error reading TXT: " ++ e)).

Definition unsupported_message : str :=
  lit "Unsupported file format. Please upload PDF, DOCX, or TXT files.".

(** [uploaded_file.name.split('.')[-1].lower()] *)
Definition file_extension (name : str) : outcome str :=
  part <- last_item (split 46%N name) ;;
  Return (lower part).

(** An uploaded file is its name and its bytes. *)
Definition process_uploaded_file (name : str) (file : bytes) : outcome str :=
  file_extension <- file_extension name ;;
  if str_eqb file_extension (lit "pdf") then extract_text_from_pdf file
  else if str_eqb file_extension (lit "docx") then extract_text_from_docx file
  else if str_eqb file_extension (lit "txt") then extract_text_from_txt file
  else Return unsupported_message.

End Utils.

(** ** src/utils.py: truncation *)

Definition truncation_marker (max_length : Z) : str :=
  [10%N; 10%N] ++ lit "[Text truncated to " ++ str_of_int max_length ++ lit " characters]".

Definition default_max_length : Z := 5000.

Definition truncate_text (text : str) (max_length : Z) : str :=
  if len text >? max_length
  then slice text None (Some max_length) ++ truncation_marker max_length
  else text.

(** ** app/streamlit_app.py: upload, question handling, answer location *)

Record Highlight : Type := {
  before : str;
  answer : str;
  after : str
}.

(** What the handler does that can be observed: the messages it shows and
    the calls it makes to the question-answering pipeline. *)
Inductive ui_event : Type :=
| st_error (msg : str)
| st_info (msg : str)
| oracle_call (question context : str)
| show_answer (text : str)
| show_highlight (h : Highlight).

Definition window_radius : Z := 100.

Section App.
Context {L : Lowercase} {D : Decoders}.

(** The pipeline [qa_pipeline(question=..., context=...)]; of its result
    only [result['answer']] is modelled. *)
Variable qa_pipeline : str -> str -> outcome str.

(** Lines 110-115: the context stored in the session after an upload. *)
Definition on_upload (name : str) (file : bytes) : outcome str :=
  extracted_text <- process_uploaded_file name file ;;
  let extracted_text := truncate_text extracted_text 5000 in
  Return extracted_text.

(** Line 207 *)
Definition answer_start (context answer : str) : Z :=
  find (lower context) (lower answer).

(** Lines 207-231: [None] is the branch that reports that the location was
    not found. *)
Definition locate (context answer : str) : option Highlight :=
  let answer_start := answer_start context answer in
  if negb (answer_start =? -1) then
    let answer_end := answer_start + len answer in
    let context_start := Z.max 0 (answer_start - 100) in
    let context_end := Z.min (len context) (answer_end + 100) in
    let before := slice context (Some context_start) (Some answer_start) in
    let answer := slice context (Some answer_start) (Some answer_end) in
    let after := slice context (Some answer_end) (Some context_end) in
    let before := if context_start >? 0 then lit "..." ++ before else before in
    let after := if context_end <? len context then after ++ lit "..." else after in
    Some {| before := before; answer := answer; after := after |}
  else None.

Definition not_found_notice : str :=
  lit "Answer extracted but exact location not found in context".

Definition missing_context_message : str :=
  [9888%N; 65039%N] ++ lit " Please provide some context text first!".

Definition missing_question_message : str :=
  [9888%N; 65039%N] ++ lit " Please enter a question!".

(** Lines 155-234, a Python empty string being false. *)
Definition on_ask (ask_button : bool) (context question : str) : list ui_event :=
  if ask_button then
    if str_eqb (strip context) [] then [st_error missing_context_message]
    else if str_eqb (strip question) [] then [st_error missing_question_message]
    else
      oracle_call question context ::
      match qa_pipeline question context with
      | Return result_answer =>
          [show_answer result_answer;
           match locate context result_answer with
           | Some h => show_highlight h
           | None => st_info not_found_notice
           end]
      | Raise e => [st_error ([10060%N] ++ lit " Error: " ++ e)]
      end
  else [].

End App.

(** ** app/streamlit_app.py: one run of the script *)

(** Lines 131-132: the two numbers of the caption under the input. *)
Definition char_count (context : str) : Z := len context.

Definition word_count (context : str) : Z :=
  Z.of_nat (length (split_whitespace context)).

(** Line 192: the "Answer Length" metric, in words. *)
Definition answer_length (result_answer : str) : Z :=
  Z.of_nat (length (split_whitespace result_answer)).

(** The radio button of line 95 with what the chosen widget holds: the
    uploader has a file (its name and bytes) or none, the text area its
    text. *)
Inductive upload_method : Type :=
| UploadFile (uploaded_file : option (str * bytes))
| TypeText (context_input : str).

Section Script.
Context {L : Lowercase} {D : Decoders}.
Variable qa_pipeline : str -> str -> outcome str.

(** Lines 101-128: the session context after the input section. *)
Definition input_section (session_context : str) (method : upload_method)
  : outcome str :=
  match method with
  | UploadFile (Some (name, file)) => on_upload name file
  | UploadFile None => Return session_context
  | TypeText context_input => Return context_input
  end.

(** Lines 101-234: the input section, then the question handler on the
    context it leaves in the session. *)
Definition script_run (session_context : str) (method : upload_method)
    (question : str) (ask_button : bool) : outcome (str * list ui_event) :=
  context <- input_section session_context method ;;
  Return (context, on_ask qa_pipeline ask_button context question).

End Script.

(** [t] neither starts nor ends with whitespace. *)
Definition trimmed (t : str) : bool :=
  match t with [] => true | c :: _ => negb (isspace c) end
  && match rev t with [] => true | c :: _ => negb (isspace c) end.

(** [s] is empty or starts with a character that is not whitespace. *)
Definition no_leading_space (s : str) : bool :=
  match s with [] => true | c :: _ => negb (isspace c) end.

(** The text a loop over pages or paragraphs builds: each item followed by
    a newline. *)
Definition lines_of (texts : list str) : str :=
  concat (map (fun t => t ++ [10%N]) texts).

(** ** Stand-ins for the interpreter and the decoders

    The statements below hold for every [Lowercase] and every [Decoders];
    these two make the definitions run on concrete inputs; they are always
    passed explicitly. *)

(** The lowercasing of the code points the examples use: ASCII and Latin-1
    capitals, and U+0130 (capital I with dot above), whose lowercase is the
    two code points U+0069 U+0307. *)
Definition lower_char (c : char) : str :=
  if (c =? 304)%N then [105%N; 775%N]
  else if ((192 <=? c) && (c <=? 222) && negb (c =? 215))%N then [(c + 32)%N]
  else [ascii_lower c].

Definition sample_lower (s : str) : str := flat_map lower_char s.

Lemma sample_lower_ascii (s : str) :
  forallb is_ascii s = true -> sample_lower s = map ascii_lower s.
Proof.
  induction s as [|c s IH]; simpl; [reflexivity|].
  intros H. apply andb_true_iff in H. destruct H as [Hc Hs].
  rewrite (IH Hs). unfold lower_char, is_ascii in *.
  apply N.ltb_lt in Hc.
  destruct (N.eqb_spec c 304); [lia|].
  destruct (N.leb_spec 192 c); [lia|]. reflexivity.
Qed.

Definition sample_Lowercase : Lowercase :=
  {| lower := sample_lower; lower_ascii := sample_lower_ascii |}.

(** A decoder that accepts ASCII bytes only. *)
Fixpoint decode_ascii (file : bytes) : outcome str :=
  match file with
  | [] => Return []
  | b :: rest =>
      let c := Byte.to_N b in
      if (c <? 128)%N then (t <- decode_ascii rest ;; Return (c :: t))
      else Raise (lit "'utf-8' codec can't decode byte")
  end.

(** A reader that rejects the empty file and otherwise reports one page. *)
Definition one_page (file : bytes) : outcome (list (outcome str)) :=
  match file with
  | [] => Raise (lit "Cannot read an empty file")
  | _ => Return [decode_ascii file]
  end.

Definition sample_Decoders : Decoders :=
  {| PdfReader_pages := one_page;
     Document_paragraphs := one_page;
     decode_utf8 := decode_ascii |}.

Definition sample_pipeline (question context : str) : outcome str :=
  Return (slice context (Some 0) (Some 2)).

(** ** Notions used in the statements *)

(** [sub] occurs in [s] at offset [i]. *)
Definition occurs_at (sub s : str) (i : nat) : Prop :=
  exists pre post, s = pre ++ sub ++ post /\ length pre = i.

Definition substring (sub s : str) : Prop := exists i, occurs_at sub s i.

(** The first exception met when the items of a loop are read in order. *)
Fixpoint first_raise (items : list (outcome str)) : option str :=
  match items with
  | [] => None
  | Return _ :: rest => first_raise rest
  | Raise e :: _ => Some e
  end.

(** A fault while a document is decoded: opening it raises [e], or it opens
    and the first page or paragraph that cannot be read raises [e]. *)
Definition document_fault (opened : outcome (list (outcome str))) (e : str) : Prop :=
  opened = Raise e
  \/ exists items, opened = Return items /\ first_raise items = Some e.

(** * Properties *)

(** ** Slices and search *)

Lemma len_nonneg (s : str) : 0 <= len s.
Proof. unfold len. lia. Qed.

Lemma len_app (a b : str) : len (a ++ b) = len a + len b.
Proof. unfold len. rewrite length_app. lia. Qed.

Lemma slice_to (s : str) (m : Z) :
  0 <= m -> slice s None (Some m) = firstn (Z.to_nat m) s.
Proof.
  intros Hm. unfold slice, clamp_index, len.
  destruct (Z.ltb_spec m 0); [lia|]. simpl skipn.
  destruct (Z.le_gt_cases m (Z.of_nat (length s))).
  - f_equal. lia.
  - rewrite !firstn_all2 by lia. reflexivity.
Qed.

Lemma slice_between (s : str) (i j : Z) :
  0 <= i -> 0 <= j ->
  slice s (Some i) (Some j) = firstn (Z.to_nat (j - i)) (skipn (Z.to_nat i) s).
Proof.
  intros Hi Hj. unfold slice, clamp_index, len.
  destruct (Z.ltb_spec i 0); [lia|]. destruct (Z.ltb_spec j 0); [lia|].
  set (n := length s).
  destruct (Z.le_gt_cases i (Z.of_nat n)) as [Hin|Hin].
  - rewrite (Z.min_l i) by lia.
    destruct (Z.le_gt_cases j (Z.of_nat n)) as [Hjn|Hjn].
    + rewrite (Z.min_l j) by lia. reflexivity.
    + rewrite (Z.min_r j) by lia.
      rewrite !firstn_all2; [reflexivity| |]; rewrite length_skipn; fold n; lia.
  - rewrite (Z.min_r i) by lia.
    rewrite !skipn_all2 by (fold n; lia). rewrite !firstn_nil. reflexivity.
Qed.

Lemma slice_length_le (s : str) (i j : Z) :
  0 <= i -> 0 <= j -> len (slice s (Some i) (Some j)) <= Z.max 0 (j - i).
Proof.
  intros Hi Hj. rewrite slice_between by assumption. unfold len.
  pose proof (firstn_le_length (Z.to_nat (j - i)) (skipn (Z.to_nat i) s)). lia.
Qed.

Lemma starts_with_app (sub s : str) :
  starts_with sub s = true <-> exists post, s = sub ++ post.
Proof.
  revert s. induction sub as [|a sub IH]; intros s; simpl.
  - split; [intros _; now exists s | reflexivity].
  - destruct s as [|b s].
    + split; [discriminate | intros [post H]; discriminate].
    + rewrite andb_true_iff, N.eqb_eq, IH. split.
      * intros [-> [post ->]]. now exists post.
      * intros [post H]. injection H as -> ->. split; [reflexivity | now exists post].
Qed.

Lemma occurs_at_0 (sub s : str) : occurs_at sub s 0 <-> starts_with sub s = true.
Proof.
  rewrite starts_with_app. split.
  - intros (pre & post & -> & Hl). destruct pre; [|discriminate]. now exists post.
  - intros [post ->]. now exists [], post.
Qed.

Lemma occurs_at_S (sub : str) (c : char) (s : str) (i : nat) :
  occurs_at sub (c :: s) (S i) <-> occurs_at sub s i.
Proof.
  split.
  - intros (pre & post & H & Hl). destruct pre as [|p pre]; [discriminate|].
    injection H as -> ->. injection Hl as Hl. now exists pre, post.
  - intros (pre & post & -> & Hl). exists (c :: pre), post. simpl. now rewrite Hl.
Qed.

Lemma occurs_at_nil (sub : str) (i : nat) : occurs_at sub [] i -> sub = [] /\ i = 0%nat.
Proof.
  intros (pre & post & H & Hl). symmetry in H.
  apply app_eq_nil in H. destruct H as [-> H]. apply app_eq_nil in H.
  destruct H as [-> _]. now subst.
Qed.

(** [find_from] answers the base offset plus the least offset at which [sub]
    occurs, or [-1] when [sub] occurs nowhere. *)
Lemma find_from_spec (s sub : str) : forall base,
  (exists i, find_from base s sub = base + Z.of_nat i /\ occurs_at sub s i /\
             forall j, (j < i)%nat -> ~ occurs_at sub s j)
  \/ (find_from base s sub = -1 /\ ~ substring sub s).
Proof.
  induction s as [|c s IH]; intros base; simpl.
  - destruct (starts_with sub []) eqn:E.
    + left. exists 0%nat. rewrite Z.add_0_r. repeat split.
      * now apply occurs_at_0.
      * intros j Hj. lia.
    + right. split; [reflexivity|]. intros [i Hi].
      destruct (occurs_at_nil Hi) as [-> _]. discriminate.
  - destruct (starts_with sub (c :: s)) eqn:E.
    + left. exists 0%nat. rewrite Z.add_0_r. repeat split.
      * now apply occurs_at_0.
      * intros j Hj. lia.
    + destruct (IH (base + 1)) as [(i & Hf & Ho & Hmin) | [Hf Hno]].
      * left. exists (S i). repeat split.
        -- rewrite Hf. lia.
        -- now apply occurs_at_S.
        -- intros [|j] Hj Hocc.
           ++ apply occurs_at_0 in Hocc. congruence.
           ++ apply occurs_at_S in Hocc. apply (Hmin j); [lia | assumption].
      * right. split; [assumption|]. intros [[|i] Hi].
        -- apply occurs_at_0 in Hi. congruence.
        -- apply occurs_at_S in Hi. apply Hno. now exists i.
Qed.

Lemma find_spec (s sub : str) :
  (exists i, find s sub = Z.of_nat i /\ occurs_at sub s i /\
             forall j, (j < i)%nat -> ~ occurs_at sub s j)
  \/ (find s sub = -1 /\ ~ substring sub s).
Proof. exact (find_from_spec s sub 0). Qed.

Lemma find_ge (s sub : str) : find s sub <> -1 -> 0 <= find s sub.
Proof.
  destruct (find_spec s sub) as [(i & -> & _) | [-> _]]; [lia | congruence].
Qed.

(** [find] answers [-1] exactly when there is no occurrence. *)
Lemma find_found_iff (s sub : str) : find s sub <> -1 <-> substring sub s.
Proof.
  destruct (find_spec s sub) as [(i & Hf & Ho & _) | [Hf Hno]]; rewrite Hf.
  - split; [intros _; now exists i | lia].
  - split; [congruence | intros H; contradiction].
Qed.

Lemma find_empty (s : str) : find s [] = 0.
Proof. unfold find. destruct s; reflexivity. Qed.

(** ** Truncation *)

Lemma truncate_text_long (text : str) (max_length : Z) :
  len text > max_length ->
  truncate_text text max_length
  = slice text None (Some max_length) ++ truncation_marker max_length.
Proof.
  intros H. unfold truncate_text.
  destruct (Z.gtb_spec (len text) max_length); [reflexivity | lia].
Qed.

Lemma firstn_len (text : str) (m : Z) :
  0 <= m -> m <= len text -> len (firstn (Z.to_nat m) text) = m.
Proof. unfold len. intros H0 H1. rewrite length_firstn. lia. Qed.

Lemma truncate_text_short (text : str) (max_length : Z) :
  len text <= max_length -> truncate_text text max_length = text.
Proof.
  intros H. unfold truncate_text.
  destruct (Z.gtb_spec (len text) max_length); [lia | reflexivity].
Qed.

Lemma truncate_text_length_le (text : str) (max_length : Z) :
  0 <= max_length ->
  len (truncate_text text max_length)
  <= max_length + len (truncation_marker max_length).
Proof.
  intros H0. destruct (Z.le_gt_cases (len text) max_length) as [H|H].
  - rewrite truncate_text_short by assumption.
    pose proof (len_nonneg (truncation_marker max_length)). lia.
  - rewrite truncate_text_long, slice_to, len_app, firstn_len by lia. lia.
Qed.

(** C3. A text no longer than [max_length] is returned as it is. *)
Theorem truncate_text_unchanged (text : str) (max_length : Z) :
  len text <= max_length -> truncate_text text max_length = text.
Proof. apply truncate_text_short. Qed.

Lemma truncate_text_unchanged_witness :
  len (lit "abc") <= 3 /\ truncate_text (lit "abc") 3 = lit "abc".
Proof.
  split; [vm_compute; discriminate | apply truncate_text_unchanged; vm_compute; discriminate].
Defined.

(** C2, as stated, fails for a negative [max_length]: the slice [text[:m]]
    then drops the last [-m] characters instead of keeping the first [m],
    and the length is not [m + len(marker)]. *)
Lemma truncate_text_negative_max_length :
  ~ (forall (text : str) (m : Z),
        len text > m ->
        truncate_text text m = firstn (Z.to_nat m) text ++ truncation_marker m
        /\ len (truncate_text text m) = m + len (truncation_marker m)).
Proof.
  intros H. destruct (H (lit "abc") (-1)) as [_ Hlen]; [reflexivity|].
  vm_compute in Hlen. discriminate.
Qed.

(** C2, amended. For [0 <= max_length < len text] the result is the first
    [max_length] characters of the text followed by the marker; its length
    is [max_length + len(marker)] and it starts with [text[:max_length]]. *)
Theorem truncate_text_truncates (text : str) (max_length : Z) :
  0 <= max_length ->
  len text > max_length ->
  truncate_text text max_length
  = firstn (Z.to_nat max_length) text ++ truncation_marker max_length
  /\ truncation_marker max_length
     = [10%N; 10%N] ++ lit "[Text truncated to " ++ str_of_int max_length
       ++ lit " characters]"
  /\ len (truncate_text text max_length)
     = max_length + len (truncation_marker max_length)
  /\ starts_with (slice text None (Some max_length))
       (truncate_text text max_length) = true.
Proof.
  intros H0 Hlen. rewrite truncate_text_long by assumption.
  rewrite slice_to by assumption. repeat split.
  - rewrite len_app, firstn_len by lia. reflexivity.
  - apply starts_with_app. now exists (truncation_marker max_length).
Qed.

Lemma truncate_text_truncates_witness :
  truncate_text (lit "abcdef") 3
  = lit "abc" ++ [10%N; 10%N] ++ lit "[Text truncated to 3 characters]"
  /\ len (truncate_text (lit "abcdef") 3) = 3 + 34.
Proof.
  destruct (@truncate_text_truncates (lit "abcdef") 3) as (E & _ & El & _).
  - lia.
  - reflexivity.
  - split; [exact E | exact El].
Defined.

(** ** File names and extensions *)

Lemma last_item_app {A : Type} (ws l : list A) :
  l <> [] -> last_item (ws ++ l) = last_item l.
Proof.
  intros Hl. unfold last_item. rewrite rev_app_distr.
  destruct (rev l) as [|x r] eqn:E; [|reflexivity].
  apply (f_equal (@rev A)) in E. rewrite rev_involutive in E. contradiction.
Qed.

Lemma split_not_nil (sep : char) (s : str) : split sep s <> [].
Proof.
  destruct s as [|c s]; simpl; [discriminate|].
  destruct (N.eqb c sep); [discriminate|].
  destruct (split sep s); discriminate.
Qed.

(** A string without the separator is the only piece. *)
Lemma split_without_sep (sep : char) (s : str) :
  ~ In sep s -> split sep s = [s].
Proof.
  induction s as [|c s IH]; simpl; intros H; [reflexivity|].
  destruct (N.eqb_spec c sep) as [->|_]; [exfalso; apply H; now left|].
  rewrite IH; [reflexivity | intros Hin; apply H; now right].
Qed.

(** The pieces after a separator are the pieces of what follows it. *)
Lemma split_at_sep (sep : char) (a b : str) :
  exists ws, ws <> [] /\ split sep (a ++ sep :: b) = ws ++ split sep b.
Proof.
  induction a as [|c a (ws & Hws & IH)]; simpl.
  - rewrite N.eqb_refl. exists [[]]. split; [discriminate | reflexivity].
  - rewrite IH. destruct (N.eqb c sep).
    + exists ([] :: ws). split; [discriminate | reflexivity].
    + destruct ws as [|w ws]; [contradiction|]. simpl.
      exists ((c :: w) :: ws). split; [discriminate | reflexivity].
Qed.

Lemma last_item_split_suffix (sep : char) (a b : str) :
  ~ In sep b -> last_item (split sep (a ++ sep :: b)) = Return b.
Proof.
  intros Hb. destruct (split_at_sep sep a b) as (ws & _ & ->).
  rewrite last_item_app by apply split_not_nil.
  rewrite split_without_sep by assumption. reflexivity.
Qed.

Lemma last_item_returns {A : Type} (l : list A) :
  l <> [] -> exists x, last_item l = Return x.
Proof.
  intros Hl. unfold last_item. destruct (rev l) as [|x r] eqn:E; [|now exists x].
  apply (f_equal (@rev A)) in E. rewrite rev_involutive in E. contradiction.
Qed.

Lemma str_eqb_eq (a b : str) : str_eqb a b = true <-> a = b.
Proof. unfold str_eqb. destruct (list_eq_dec N.eq_dec a b); split; congruence. Qed.

Lemma str_eqb_neq (a b : str) : a <> b -> str_eqb a b = false.
Proof. unfold str_eqb. destruct (list_eq_dec N.eq_dec a b); congruence. Qed.

Section ExtractionProps.
Context {L : Lowercase} {D : Decoders}.

Lemma file_extension_returns (name : str) :
  exists ext, file_extension name = Return ext.
Proof.
  unfold file_extension.
  destruct (last_item_returns (split_not_nil 46%N name)) as [part ->].
  now exists (lower part).
Qed.

Lemma append_lines_raises (items : list (outcome str)) : forall text e,
  append_lines text items = Raise e <-> first_raise items = Some e.
Proof.
  induction items as [|[t|e'] rest IH]; intros text e; simpl.
  - split; discriminate.
  - apply IH.
  - split; congruence.
Qed.

Lemma append_lines_returns (items : list (outcome str)) : forall text,
  first_raise items = None -> exists t, append_lines text items = Return t.
Proof.
  induction items as [|[t|e'] rest IH]; intros text H; simpl in *.
  - now exists text.
  - now apply IH.
  - discriminate.
Qed.

(** Reading a document raises exactly when opening it raises or when
    reading one of its pages or paragraphs does. *)
Lemma document_raises (opened : outcome (list (outcome str))) (e : str) :
  (items <- opened ;; text <- append_lines [] items ;; Return (strip text)) = Raise e
  <-> document_fault opened e.
Proof.
  unfold document_fault. destruct opened as [items|e0]; simpl.
  - split.
    + intros H. right. exists items. split; [reflexivity|].
      apply (append_lines_raises items []).
      destruct (append_lines [] items); [discriminate | assumption].
    + intros [H | (items' & Hp & Hr)]; [discriminate|].
      injection Hp as <-. apply (append_lines_raises items []) in Hr.
      now rewrite Hr.
  - split.
    + intros H. injection H as ->. now left.
    + intros [H | (items & Hp & _)]; [injection H as ->; reflexivity | discriminate].
Qed.

Lemma try_except_returns (body : outcome str) (prefix : str) :
  exists s, try_except body (fun e => Return (prefix ++ e)) = Return s.
Proof. destruct body as [t|e]; simpl; eauto. Qed.

Lemma process_uploaded_file_returns (name : str) (file : bytes) :
  exists s, process_uploaded_file name file = Return s.
Proof.
  unfold process_uploaded_file.
  destruct (file_extension_returns name) as [ext ->]. simpl.
  destruct (str_eqb ext (lit "pdf")); [apply try_except_returns|].
  destruct (str_eqb ext (lit "docx")); [apply try_except_returns|].
  destruct (str_eqb ext (lit "txt")); [apply try_except_returns|].
  now exists unsupported_message.
Qed.

End ExtractionProps.

Section ExtractionClaims.
Context {L : Lowercase} {D : Decoders}.

Lemma lower_pdf_upper : lower (lit "PDF") = lit "pdf".
Proof. rewrite lower_ascii; reflexivity. Qed.

Lemma lower_txt : lower (lit "txt") = lit "txt".
Proof. rewrite lower_ascii; reflexivity. Qed.

(** C4. Each extractor returns a string for every file; when decoding
    faults with message [e], that string is "Error reading PDF: e",
    "Error reading DOCX: e" or "Error reading TXT: e"; and a file with one
    of the three extensions is handed to the extractor of that format. *)
Theorem extraction_never_raises (file : bytes) :
  (exists s, extract_text_from_pdf file = Return s)
  /\ (exists s, extract_text_from_docx file = Return s)
  /\ (exists s, extract_text_from_txt file = Return s)
  /\ (forall e, document_fault (PdfReader_pages file) e ->
        extract_text_from_pdf file = Return (lit "Error reading PDF: " ++ e))
  /\ (forall e, document_fault (Document_paragraphs file) e ->
        extract_text_from_docx file = Return (lit "Error reading DOCX: " ++ e))
  /\ (forall e, decode_utf8 file = Raise e ->
        extract_text_from_txt file = Return (lit "Error reading TXT: " ++ e))
  /\ (forall name, file_extension name = Return (lit "pdf") ->
        process_uploaded_file name file = extract_text_from_pdf file)
  /\ (forall name, file_extension name = Return (lit "docx") ->
        process_uploaded_file name file = extract_text_from_docx file)
  /\ (forall name, file_extension name = Return (lit "txt") ->
        process_uploaded_file name file = extract_text_from_txt file).
Proof.
  repeat split.
  - apply try_except_returns.
  - apply try_except_returns.
  - apply try_except_returns.
  - intros e H. apply document_raises in H.
    unfold extract_text_from_pdf, pdf_body. now rewrite H.
  - intros e H. apply document_raises in H.
    unfold extract_text_from_docx, docx_body. now rewrite H.
  - intros e H. unfold extract_text_from_txt, txt_body. now rewrite H.
  - intros name H. unfold process_uploaded_file. now rewrite H.
  - intros name H. unfold process_uploaded_file. now rewrite H.
  - intros name H. unfold process_uploaded_file. now rewrite H.
Qed.

(** C5. A file whose extension is none of pdf, docx and txt yields the
    fixed message, whatever its bytes. *)
Theorem unsupported_extension_message (name : str) (file : bytes) :
  exists ext,
    file_extension name = Return ext
    /\ (ext <> lit "pdf" -> ext <> lit "docx" -> ext <> lit "txt" ->
        process_uploaded_file name file
        = Return (lit "Unsupported file format. Please upload PDF, DOCX, or TXT files.")).
Proof.
  destruct (file_extension_returns name) as [ext Hext]. exists ext.
  split; [assumption|]. intros Hp Hd Ht.
  unfold process_uploaded_file. rewrite Hext. simpl.
  rewrite !str_eqb_neq by assumption. reflexivity.
Qed.

(** C10. The extension is what follows the last '.' of the name, or the
    whole name when it has no '.', lowercased; so a name ending in ".PDF"
    is read as a PDF and the name "txt" is read as a text file. *)
Theorem extension_is_lowercased_last_piece :
  (forall name, ~ In 46%N name -> file_extension name = Return (lower name))
  /\ (forall stem ext, ~ In 46%N ext ->
        file_extension (stem ++ 46%N :: ext) = Return (lower ext))
  /\ (forall stem file,
        process_uploaded_file (stem ++ lit ".PDF") file = extract_text_from_pdf file)
  /\ (forall file,
        process_uploaded_file (lit "txt") file = extract_text_from_txt file).
Proof.
  assert (Hsuffix : forall stem ext, ~ In 46%N ext ->
            file_extension (stem ++ 46%N :: ext) = Return (lower ext)).
  { intros stem ext H. unfold file_extension.
    now rewrite last_item_split_suffix. }
  assert (Hwhole : forall name, ~ In 46%N name ->
            file_extension name = Return (lower name)).
  { intros name H. unfold file_extension.
    now rewrite split_without_sep. }
  repeat split; try assumption.
  - intros stem file. unfold process_uploaded_file.
    change (lit ".PDF") with (46%N :: lit "PDF").
    rewrite Hsuffix, lower_pdf_upper; [reflexivity|].
    vm_compute. intuition discriminate.
  - intros file. unfold process_uploaded_file.
    rewrite Hwhole, lower_txt; [reflexivity|].
    vm_compute. intuition discriminate.
Qed.

(** C8. Truncation to a maximum length [m >= 0] leaves at most
    [m + len(marker)] characters; in particular for the default 5000, and
    for every context stored after an upload. *)
Theorem normalized_context_bound :
  (forall text m, 0 <= m ->
     len (truncate_text text m) <= m + len (truncation_marker m))
  /\ (forall text,
        len (truncate_text text default_max_length)
        <= default_max_length + len (truncation_marker default_max_length))
  /\ (forall name file,
        exists context,
          on_upload name file = Return context
          /\ len context <= 5000 + len (truncation_marker 5000)).
Proof.
  repeat split.
  - apply truncate_text_length_le.
  - intros text. apply truncate_text_length_le. unfold default_max_length. lia.
  - intros name file. unfold on_upload.
    destruct (process_uploaded_file_returns name file) as [s ->]. simpl.
    eexists. split; [reflexivity|]. apply truncate_text_length_le. lia.
Qed.

End ExtractionClaims.

(** ** Whitespace *)

Lemma lstrip_nil_iff (s : str) : lstrip s = [] <-> forallb isspace s = true.
Proof.
  induction s as [|c s IH]; simpl; [tauto|].
  destruct (isspace c); simpl; [assumption | split; discriminate].
Qed.

Lemma lstrip_blank (s : str) : forallb isspace (lstrip s) = true -> lstrip s = [].
Proof.
  induction s as [|c s IH]; simpl; [reflexivity|].
  destruct (isspace c) eqn:E; [assumption|]. simpl. rewrite E. discriminate.
Qed.

Lemma forallb_rev {A : Type} (f : A -> bool) (l : list A) :
  forallb f (rev l) = forallb f l.
Proof.
  induction l as [|a l IH]; simpl; [reflexivity|].
  rewrite forallb_app, IH. simpl. rewrite andb_true_r. apply andb_comm.
Qed.

(** Trimming leaves nothing exactly for the empty and the all-whitespace
    strings. *)
Lemma strip_nil_iff (s : str) : strip s = [] <-> forallb isspace s = true.
Proof.
  unfold strip, rstrip. split.
  - intros H. apply (f_equal (@rev char)) in H. rewrite rev_involutive in H.
    simpl in H. apply lstrip_nil_iff in H. rewrite forallb_rev in H.
    apply lstrip_blank in H. now apply lstrip_nil_iff.
  - intros H. apply lstrip_nil_iff in H. rewrite H. reflexivity.
Qed.

(** ** The question handler *)

Section HandlerProps.
Context {L : Lowercase}.
Variable qa_pipeline : str -> str -> outcome str.

(** C7. When the context or the question is empty or all whitespace, the
    handler shows one validation message and does not call the pipeline;
    a call to the pipeline happens only with both of them non-blank, and
    with exactly these two strings. *)
Theorem validation_precedes_oracle (context question : str) :
  (forallb isspace context = true \/ forallb isspace question = true ->
     (on_ask qa_pipeline true context question = [st_error missing_context_message]
      \/ on_ask qa_pipeline true context question = [st_error missing_question_message])
     /\ forall q c, ~ In (oracle_call q c) (on_ask qa_pipeline true context question))
  /\ (forall ask_button q c,
        In (oracle_call q c) (on_ask qa_pipeline ask_button context question) ->
        ask_button = true /\ strip context <> [] /\ strip question <> []
        /\ q = question /\ c = context).
Proof.
  split.
  - intros H. unfold on_ask.
    destruct (str_eqb (strip context) []) eqn:Ec.
    + split; [now left|]. intros q c [Hin|[]]. discriminate.
    + destruct (str_eqb (strip question) []) eqn:Eq.
      * split; [now right|]. intros q c [Hin|[]]. discriminate.
      * exfalso. destruct H as [H|H]; apply strip_nil_iff in H;
          apply str_eqb_eq in H; congruence.
  - intros ask_button q c. unfold on_ask.
    destruct ask_button; [|intros []].
    destruct (str_eqb (strip context) []) eqn:Ec.
    { intros [Hin|[]]. discriminate. }
    destruct (str_eqb (strip question) []) eqn:Eq.
    { intros [Hin|[]]. discriminate. }
    assert (Hc : strip context <> []).
    { intros Hn. apply str_eqb_eq in Hn. congruence. }
    assert (Hq : strip question <> []).
    { intros Hn. apply str_eqb_eq in Hn. congruence. }
    intros [Hin|Hin].
    + injection Hin as <- <-. auto.
    + exfalso. destruct (qa_pipeline question context) as [a|e]; simpl in Hin.
      * destruct Hin as [Hin|[Hin|[]]]; [discriminate|].
        destruct (locate context a); discriminate.
      * destruct Hin as [Hin|[]]. discriminate.
Qed.

End HandlerProps.

(** ** The answer locator *)

Section LocatorProps.
Context {L : Lowercase}.

Lemma lower_nil : lower [] = [].
Proof. now rewrite lower_ascii. Qed.

Lemma answer_start_ge (context answer : str) :
  answer_start context answer <> -1 -> 0 <= answer_start context answer.
Proof. apply find_ge. Qed.

(** The location is found exactly when the lowercased answer occurs in
    the lowercased context, and [answer_start] is then the offset of its
    leftmost occurrence there. *)
Lemma locate_found_iff (context answer : str) :
  locate context answer <> None <-> substring (lower answer) (lower context).
Proof.
  unfold locate. rewrite <- find_found_iff. fold (answer_start context answer).
  destruct (Z.eqb_spec (answer_start context answer) (-1)) as [E|E]; simpl.
  - split; [congruence | intros H; contradiction].
  - split; [intros _; assumption | discriminate].
Qed.

Lemma answer_start_leftmost (context answer : str) :
  answer_start context answer <> -1 ->
  exists i, answer_start context answer = Z.of_nat i
            /\ occurs_at (lower answer) (lower context) i
            /\ forall j, (j < i)%nat -> ~ occurs_at (lower answer) (lower context) j.
Proof.
  unfold answer_start. intros H.
  destruct (find_spec (lower context) (lower answer)) as [Hi | [Hf _]];
    [assumption | contradiction].
Qed.

Lemma locate_found (context answer : str) :
  answer_start context answer <> -1 ->
  locate context answer
  = let s := answer_start context answer in
    let e := s + len answer in
    let windowStart := Z.max 0 (s - 100) in
    let windowEnd := Z.min (len context) (e + 100) in
    Some {| before := (if windowStart >? 0 then lit "..." else [])
                      ++ slice context (Some windowStart) (Some s);
            answer := slice context (Some s) (Some e);
            after := slice context (Some e) (Some windowEnd)
                     ++ (if windowEnd <? len context then lit "..." else []) |}.
Proof.
  intros H. unfold locate.
  destruct (Z.eqb_spec (answer_start context answer) (-1)) as [E|_]; [contradiction|].
  simpl negb. cbv zeta.
  destruct (_ >? 0); destruct (_ <? len context);
    rewrite ?app_nil_r; reflexivity.
Qed.

(** C6. When the answer is found at [s], with [e = s + len answer], the
    window is [max(0, s - 100) .. min(len context, e + 100)], [before] gets
    a leading "..." exactly when the window starts after offset 0, [after]
    a trailing "..." exactly when it ends before the end of the context,
    and both are at most 103 characters long. *)
Theorem highlight_window (context answer : str) :
  let s := answer_start context answer in
  let e := s + len answer in
  let windowStart := Z.max 0 (s - 100) in
  let windowEnd := Z.min (len context) (e + 100) in
  s <> -1 ->
  exists h,
    locate context answer = Some h
    /\ before h = (if windowStart >? 0 then lit "..." else [])
                  ++ slice context (Some windowStart) (Some s)
    /\ after h = slice context (Some e) (Some windowEnd)
                 ++ (if windowEnd <? len context then lit "..." else [])
    /\ len (before h) <= window_radius + 3
    /\ len (after h) <= window_radius + 3.
Proof.
  intros s e windowStart windowEnd Hs.
  pose proof (answer_start_ge context answer Hs) as Hge. fold s in Hge.
  pose proof (len_nonneg answer) as Ha. pose proof (len_nonneg context) as Hc.
  rewrite (locate_found context answer Hs). cbv zeta. fold s e windowStart windowEnd.
  eexists. split; [reflexivity|]. simpl before. simpl after.
  split; [reflexivity|]. split; [reflexivity|].
  unfold window_radius. rewrite !len_app.
  assert (Hb : len (slice context (Some windowStart) (Some s)) <= 100).
  { pose proof (@slice_length_le context windowStart s). lia. }
  assert (Hf : len (slice context (Some e) (Some windowEnd)) <= 100).
  { pose proof (@slice_length_le context e windowEnd). lia. }
  split.
  - destruct (windowStart >? 0);
      [change (len (lit "...")) with 3 | change (len []) with 0]; lia.
  - destruct (windowEnd <? len context);
      [change (len (lit "...")) with 3 | change (len []) with 0]; lia.
Qed.

(** C9. For the empty answer the search succeeds at offset 0 in every
    context: the highlighted answer is empty, nothing precedes it, and
    what follows is the first 100 characters of the context (with "..."
    when the context is longer); the not-found branch is not taken. *)
Theorem empty_answer_found_at_start (context : str) :
  answer_start context [] = 0
  /\ locate context [] <> None
  /\ locate context []
     = Some {| before := [];
               answer := [];
               after := firstn (Z.to_nat window_radius) context
                        ++ (if window_radius <? len context then lit "..." else []) |}.
Proof.
  assert (H0 : answer_start context [] = 0).
  { unfold answer_start. rewrite lower_nil. apply find_empty. }
  assert (Hloc : locate context []
     = Some {| before := [];
               answer := [];
               after := firstn (Z.to_nat window_radius) context
                        ++ (if window_radius <? len context then lit "..." else []) |}).
  { rewrite locate_found by (rewrite H0; discriminate).
    cbv zeta. rewrite H0. change (len []) with 0. simpl Z.add. simpl Z.sub.
    pose proof (len_nonneg context) as Hc.
    change (Z.max 0 (-100)) with 0. change (0 >? 0) with false.
    rewrite !slice_between by lia. simpl firstn at 1 2. simpl app at 1.
    unfold window_radius. f_equal. f_equal.
    destruct (Z.ltb_spec 100 (len context)) as [Hlt|Hle].
    - rewrite Z.min_r by lia. destruct (Z.ltb_spec 100 (len context)); [|lia].
      reflexivity.
    - rewrite Z.min_l by lia. destruct (Z.ltb_spec (len context) (len context)); [lia|].
      simpl skipn. rewrite !firstn_all2; [reflexivity | | ]; unfold len in *; lia. }
  split; [assumption|]. split; [rewrite Hloc; discriminate | assumption].
Qed.

End LocatorProps.

(** ** Where lowercasing keeps every offset: ASCII text *)

Lemma forallb_firstn {A : Type} (f : A -> bool) (n : nat) (l : list A) :
  forallb f l = true -> forallb f (firstn n l) = true.
Proof.
  revert l. induction n as [|n IH]; intros [|a l]; simpl; try reflexivity.
  rewrite !andb_true_iff. intros [Ha Hl]. auto.
Qed.

Lemma forallb_skipn {A : Type} (f : A -> bool) (n : nat) (l : list A) :
  forallb f l = true -> forallb f (skipn n l) = true.
Proof.
  revert l. induction n as [|n IH]; intros [|a l]; simpl; try tauto.
  rewrite andb_true_iff. intros [_ Hl]. auto.
Qed.

Lemma occurs_at_cut (sub s : str) (i : nat) :
  occurs_at sub s i -> firstn (length sub) (skipn i s) = sub.
Proof.
  intros (pre & post & -> & <-).
  rewrite skipn_app, skipn_all, Nat.sub_diag. simpl.
  rewrite firstn_app, firstn_all, Nat.sub_diag. simpl. apply app_nil_r.
Qed.

Section AsciiLocator.
Context {L : Lowercase}.

(** On ASCII text [lower] works character by character, so an offset in
    the lowercased context is the same offset in the context, and the
    highlighted slice is the answer up to case. *)
Lemma locate_ascii_slice (context ans : str) (h : Highlight) :
  forallb is_ascii context = true ->
  forallb is_ascii ans = true ->
  locate context ans = Some h ->
  lower (answer h) = lower ans.
Proof.
  intros Hc Ha Hloc.
  assert (Hs : answer_start context ans <> -1).
  { intros E. unfold locate in Hloc. rewrite E in Hloc. discriminate. }
  destruct (answer_start_leftmost context ans Hs) as (i & Hi & Hocc & _).
  rewrite (locate_found context ans Hs) in Hloc. cbv zeta in Hloc.
  injection Hloc as <-. simpl.
  rewrite Hi, slice_between by (pose proof (len_nonneg ans); lia).
  replace (Z.to_nat (Z.of_nat i + len ans - Z.of_nat i)) with (length ans)
    by (unfold len; lia).
  rewrite Nat2Z.id.
  rewrite (lower_ascii context Hc), (lower_ascii ans Ha) in Hocc.
  apply occurs_at_cut in Hocc.
  rewrite length_map, skipn_map, firstn_map in Hocc.
  rewrite lower_ascii by (apply forallb_firstn, forallb_skipn, Hc).
  rewrite Hocc. symmetry. apply lower_ascii, Ha.
Qed.

End AsciiLocator.

(** ** Lowercasing that changes the length *)

(** C1, at a context that starts with U+0130. Its lowercase is two code
    points long, so every offset found in the lowercased context is one
    more than the offset in the context: the answer "Turkey" is in the
    context, is found, and the slice taken from the context is "urkey". *)
Theorem highlight_shifted_by_lowercasing :
  let context := 304%N :: lit "stanbul is in Turkey" in
  let oracle_answer := lit "Turkey" in
  occurs_at oracle_answer context 15
  /\ @answer_start sample_Lowercase context oracle_answer = 16
  /\ @locate sample_Lowercase context oracle_answer
     = Some {| before := 304%N :: lit "stanbul is in T";
               answer := lit "urkey";
               after := [] |}
  /\ @lower sample_Lowercase (lit "urkey") <> @lower sample_Lowercase oracle_answer.
Proof.
  cbv zeta. split; [|split; [|split]].
  - exists (304%N :: lit "stanbul is in "), []. split; reflexivity.
  - reflexivity.
  - reflexivity.
  - vm_compute. discriminate.
Qed.

(** ** The statements at concrete inputs *)

Lemma extraction_never_raises_witness :
  @extract_text_from_pdf sample_Decoders []
  = Return (lit "Error reading PDF: Cannot read an empty file").
Proof.
  destruct (@extraction_never_raises sample_Lowercase sample_Decoders [])
    as (_ & _ & _ & Hpdf & _).
  apply Hpdf. left. reflexivity.
Defined.

Lemma unsupported_extension_message_witness :
  @process_uploaded_file sample_Lowercase sample_Decoders (lit "data.csv") []
  = Return (lit "Unsupported file format. Please upload PDF, DOCX, or TXT files.").
Proof.
  destruct (@unsupported_extension_message sample_Lowercase sample_Decoders
              (lit "data.csv") []) as (ext & Hext & H).
  vm_compute in Hext. injection Hext as <-.
  apply H; vm_compute; discriminate.
Defined.

Lemma extension_is_lowercased_last_piece_witness :
  @file_extension sample_Lowercase (lit "report.final.PDF") = Return (lit "pdf").
Proof.
  destruct (@extension_is_lowercased_last_piece sample_Lowercase sample_Decoders)
    as (_ & Hsuffix & _).
  apply (Hsuffix (lit "report.final") (lit "PDF")).
  vm_compute. intuition discriminate.
Defined.

Lemma normalized_context_bound_witness :
  len (truncate_text (lit "abcdef") 3) <= 3 + len (truncation_marker 3).
Proof.
  destruct (@normalized_context_bound sample_Lowercase sample_Decoders) as (H & _).
  apply H. lia.
Defined.

Lemma validation_precedes_oracle_witness :
  forallb isspace (lit "   ") = true
  /\ ~ In (oracle_call (lit "What?") (lit "   "))
         (@on_ask sample_Lowercase sample_pipeline true (lit "   ") (lit "What?")).
Proof.
  destruct (@validation_precedes_oracle sample_Lowercase sample_pipeline
              (lit "   ") (lit "What?")) as (H & _).
  split; [reflexivity|].
  destruct H as (_ & Hno); [left; reflexivity | apply Hno].
Defined.

Lemma highlight_window_witness :
  exists h,
    @locate sample_Lowercase
      (lit "AI was founded as an academic discipline in 1956.") (lit "1956") = Some h
    /\ len (before h) <= 103 /\ len (after h) <= 103.
Proof.
  destruct (@highlight_window sample_Lowercase
              (lit "AI was founded as an academic discipline in 1956.") (lit "1956"))
    as (h & Hloc & _ & _ & Hb & Ha).
  - vm_compute. discriminate.
  - exists h. split; [exact Hloc | split; [exact Hb | exact Ha]].
Defined.

(** The scenarios of the specification. *)
Example truncate_abcdef :
  truncate_text (lit "abcdef") 3
  = lit "abc" ++ [10%N; 10%N] ++ lit "[Text truncated to 3 characters]".
Proof. reflexivity. Qed.

Example locate_1956 :
  @locate sample_Lowercase
    (lit "AI was founded as an academic discipline in 1956.") (lit "1956")
  = Some {| before := lit "AI was founded as an academic discipline in ";
            answer := lit "1956";
            after := lit "." |}.
Proof. reflexivity. Qed.

Example extract_csv :
  @process_uploaded_file sample_Lowercase sample_Decoders (lit "table.csv") []
  = Return unsupported_message.
Proof. reflexivity. Qed.

Example ask_empty_question :
  @on_ask sample_Lowercase sample_pipeline true (lit "Some context.") []
  = [st_error missing_question_message].
Proof. reflexivity. Qed.


(** * Further properties of the code *)

(** ** Trimming *)

Lemma lstrip_split (s : str) :
  exists l, s = l ++ lstrip s /\ forallb isspace l = true.
Proof.
  induction s as [|c s (l & Hs & Hl)]; simpl.
  - now exists [].
  - destruct (isspace c) eqn:E.
    + exists (c :: l). simpl. rewrite E, Hl. split; [now f_equal | reflexivity].
    + now exists [].
Qed.

Lemma lstrip_head (s : str) :
  match lstrip s with [] => True | c :: _ => isspace c = false end.
Proof.
  induction s as [|c s IH]; simpl; [exact I|].
  destruct (isspace c) eqn:E; [assumption | simpl; assumption].
Qed.

(** [strip] removes a whitespace prefix and a whitespace suffix and nothing
    else, and what is left neither starts nor ends with whitespace. *)
Lemma strip_split (s : str) :
  exists l r,
    s = l ++ strip s ++ r
    /\ forallb isspace l = true /\ forallb isspace r = true
    /\ trimmed (strip s) = true.
Proof.
  destruct (lstrip_split s) as (l & Hs & Hl).
  destruct (lstrip_split (rev (lstrip s))) as (r' & Hr & Hr').
  assert (Hu : lstrip s = strip s ++ rev r').
  { unfold strip, rstrip. rewrite <- rev_app_distr, <- Hr. now rewrite rev_involutive. }
  exists l, (rev r'). split; [|split; [|split]].
  - rewrite <- Hu. exact Hs.
  - exact Hl.
  - now rewrite forallb_rev.
  - unfold trimmed. apply andb_true_iff. split.
    + pose proof (lstrip_head s) as Hh. rewrite Hu in Hh.
      destruct (strip s) as [|c t]; [reflexivity|]. simpl in Hh. now rewrite Hh.
    + pose proof (lstrip_head (rev (lstrip s))) as Hh.
      unfold strip, rstrip. rewrite rev_involutive.
      destruct (lstrip (rev (lstrip s))) as [|c t]; [reflexivity|]. now rewrite Hh.
Qed.

Lemma strip_blank (s : str) : forallb isspace s = true -> strip s = [].
Proof. apply strip_nil_iff. Qed.

Lemma lines_of_blank (texts : list str) :
  Forall (fun t => forallb isspace t = true) texts ->
  forallb isspace (lines_of texts) = true.
Proof.
  unfold lines_of. induction 1 as [|t texts Ht _ IH]; [reflexivity|].
  cbn [map concat]. rewrite !forallb_app.
  apply andb_true_iff. split; [|exact IH].
  apply andb_true_iff. split; [exact Ht | reflexivity].
Qed.

(** ** Extraction on documents that decode *)

Section ExtractionResults.
Context {L : Lowercase} {D : Decoders}.

Lemma append_lines_all_read (texts : list str) : forall text,
  append_lines text (map Return texts) = Return (text ++ lines_of texts).
Proof.
  unfold lines_of. induction texts as [|t texts IH]; intros text; simpl.
  - now rewrite app_nil_r.
  - rewrite IH. now rewrite <- !app_assoc.
Qed.

Lemma document_read (opened : outcome (list (outcome str))) (texts : list str) :
  opened = Return (map Return texts) ->
  (items <- opened ;; text <- append_lines [] items ;; Return (strip text))
  = Return (strip (lines_of texts)).
Proof. intros ->. simpl. now rewrite append_lines_all_read. Qed.

(** X1. When the document opens and every page (paragraph) can be read, the
    extracted text is the page (paragraph) texts in document order, each
    followed by a newline, with the surrounding whitespace removed. *)
Theorem extraction_joins_in_order (file : bytes) (texts : list str) :
  (PdfReader_pages file = Return (map Return texts) ->
   extract_text_from_pdf file = Return (strip (lines_of texts)))
  /\ (Document_paragraphs file = Return (map Return texts) ->
      extract_text_from_docx file = Return (strip (lines_of texts))).
Proof.
  split; intros H.
  - unfold extract_text_from_pdf, pdf_body. now rewrite (document_read texts H).
  - unfold extract_text_from_docx, docx_body. now rewrite (document_read texts H).
Qed.

(** X2. When the bytes decode, the text extractor returns the decoded text
    without a whitespace prefix and a whitespace suffix: nothing else is
    removed, and the result neither starts nor ends with whitespace. *)
Theorem txt_extraction_trims_only (file : bytes) (text : str) :
  decode_utf8 file = Return text ->
  exists l t r,
    extract_text_from_txt file = Return t
    /\ text = l ++ t ++ r
    /\ forallb isspace l = true /\ forallb isspace r = true
    /\ trimmed t = true.
Proof.
  intros H. destruct (strip_split text) as (l & r & Ht & Hl & Hr & Htr).
  exists l, (strip text), r. unfold extract_text_from_txt, txt_body.
  rewrite H. simpl. auto.
Qed.

(** X3. A document without pages, or whose pages all hold only whitespace
    (a scanned PDF, say), is extracted as the empty string, and so is a text
    file that decodes to whitespace. *)
Theorem blank_document_extracts_empty (file : bytes) :
  (forall texts, PdfReader_pages file = Return (map Return texts) ->
     Forall (fun t => forallb isspace t = true) texts ->
     extract_text_from_pdf file = Return [])
  /\ (forall texts, Document_paragraphs file = Return (map Return texts) ->
        Forall (fun t => forallb isspace t = true) texts ->
        extract_text_from_docx file = Return [])
  /\ (forall text, decode_utf8 file = Return text ->
        forallb isspace text = true ->
        extract_text_from_txt file = Return []).
Proof.
  split; [|split].
  - intros texts H Hb. unfold extract_text_from_pdf, pdf_body.
    rewrite (document_read texts H). simpl. now rewrite strip_blank by now apply lines_of_blank.
  - intros texts H Hb. unfold extract_text_from_docx, docx_body.
    rewrite (document_read texts H). simpl. now rewrite strip_blank by now apply lines_of_blank.
  - intros text H Hb. unfold extract_text_from_txt, txt_body.
    rewrite H. simpl. now rewrite strip_blank.
Qed.

End ExtractionResults.

(** ** Truncation, again *)

Lemma truncation_marker_len (max_length : Z) : 2 <= len (truncation_marker max_length).
Proof.
  unfold truncation_marker. rewrite len_app.
  pose proof (len_nonneg (lit "[Text truncated to " ++ str_of_int max_length
                          ++ lit " characters]")).
  change (len [10%N; 10%N]) with 2. lia.
Qed.

Lemma firstn_prefix_app (m : nat) (a b : str) :
  length a = m -> firstn m (a ++ b) = a.
Proof.
  intros <-. rewrite firstn_app, firstn_all, Nat.sub_diag. simpl. apply app_nil_r.
Qed.

(** X4. For [max_length >= 0], truncating a text that was already truncated
    to the same length changes nothing: the marker is not added twice. *)
Theorem truncate_text_idempotent (text : str) (max_length : Z) :
  0 <= max_length ->
  truncate_text (truncate_text text max_length) max_length
  = truncate_text text max_length.
Proof.
  intros H0. destruct (Z.le_gt_cases (len text) max_length) as [H|H].
  - rewrite !(@truncate_text_short text max_length) by assumption. reflexivity.
  - pose proof (truncation_marker_len max_length) as Hm.
    assert (Hcut : len (firstn (Z.to_nat max_length) text) = max_length)
      by (apply firstn_len; lia).
    rewrite (@truncate_text_long text) by lia. rewrite slice_to by assumption.
    rewrite truncate_text_long by (rewrite len_app, Hcut; lia).
    rewrite slice_to by assumption. f_equal.
    apply firstn_prefix_app. unfold len in Hcut. lia.
Qed.

Lemma truncate_text_idempotent_witness :
  truncate_text (truncate_text (lit "abcdef") 3) 3 = truncate_text (lit "abcdef") 3.
Proof. apply truncate_text_idempotent. lia. Defined.

(** X5. For [max_length >= 0], the result fits in [max_length] characters
    exactly when the text did: whenever the text is cut, the marker makes
    the result longer than [max_length]. *)
Theorem truncate_text_fits_iff (text : str) (max_length : Z) :
  0 <= max_length ->
  (len (truncate_text text max_length) <= max_length <-> len text <= max_length).
Proof.
  intros H0. pose proof (truncation_marker_len max_length) as Hm. split.
  - intros Hfit. destruct (Z.le_gt_cases (len text) max_length) as [H|H]; [assumption|].
    rewrite truncate_text_long, slice_to, len_app, firstn_len in Hfit by lia. lia.
  - intros H. now rewrite truncate_text_short.
Qed.

Lemma truncate_text_fits_iff_witness :
  len (truncate_text (lit "abcdef") 3) <= 3 <-> len (lit "abcdef") <= 3.
Proof. apply truncate_text_fits_iff. lia. Defined.

(** ** Counting words *)

Lemma split_words_nil_iff (s : str) : forall word,
  split_words word s = [] <-> word = [] /\ forallb isspace s = true.
Proof.
  induction s as [|c s IH]; intros word; simpl.
  - destruct word; split; try tauto; try discriminate.
    intros [H _]. discriminate.
  - destruct (isspace c) eqn:E; simpl.
    + destruct word as [|w word].
      * rewrite IH. tauto.
      * split; [discriminate | intros [H _]; discriminate].
    + rewrite IH. split; [intros [H _]; discriminate | intros [_ H]; discriminate].
Qed.

Lemma split_words_spec (s : str) : forall word,
  forallb (fun c => negb (isspace c)) word = true ->
  Forall (fun w => w <> [] /\ forallb (fun c => negb (isspace c)) w = true)
         (split_words word s)
  /\ concat (split_words word s)
     = rev word ++ filter (fun c => negb (isspace c)) s.
Proof.
  induction s as [|c s IH]; intros word Hw; simpl.
  - destruct word as [|w word]; simpl.
    + split; [constructor | reflexivity].
    + rewrite !app_nil_r. split; [|reflexivity].
      constructor; [|constructor]. split.
      * intros E. apply (f_equal (@length char)) in E.
        rewrite length_app in E. simpl in E. lia.
      * change (rev word ++ [w]) with (rev (w :: word)). now rewrite forallb_rev.
  - destruct (isspace c) eqn:E; simpl.
    + destruct (IH [] eq_refl) as [Hall Hcat]. simpl in Hcat.
      destruct word as [|w word]; [now split|].
      split.
      * constructor; [|assumption]. split.
        -- intros E'. apply (f_equal (@length char)) in E'.
           simpl in E'. rewrite length_app in E'. simpl in E'. lia.
        -- now rewrite forallb_rev.
      * simpl. now rewrite Hcat.
    + destruct (IH (c :: word)) as [Hall Hcat].
      { simpl. now rewrite E, Hw. }
      split; [assumption|]. rewrite Hcat. simpl. now rewrite <- app_assoc.
Qed.

Lemma length_concat_ge {A : Type} (ws : list (list A)) :
  Forall (fun w => w <> []) ws -> (length ws <= length (concat ws))%nat.
Proof.
  induction 1 as [|w ws Hw _ IH]; simpl; [lia|].
  rewrite length_app. destruct w; [contradiction | simpl; lia].
Qed.

(** X6. The words counted for the caption (and for the answer-length
    metric) are non-empty and free of whitespace; put together, in order,
    they are the text without its whitespace; so the word count is at most
    the character count. *)
Theorem words_are_the_non_whitespace (context : str) :
  Forall (fun w => w <> [] /\ forallb (fun c => negb (isspace c)) w = true)
         (split_whitespace context)
  /\ concat (split_whitespace context) = filter (fun c => negb (isspace c)) context
  /\ word_count context <= char_count context
  /\ answer_length context <= len context.
Proof.
  destruct (split_words_spec context [] eq_refl) as [Hall Hcat]. simpl in Hcat.
  fold (split_whitespace context) in Hall, Hcat.
  split; [assumption|]. split; [assumption|].
  cut (word_count context <= char_count context); [intros H; split; exact H|].
  unfold word_count, char_count, len.
  assert (Hne : Forall (fun w : str => w <> []) (split_whitespace context)).
  { eapply Forall_impl; [|exact Hall]. intros w [H _]. exact H. }
  pose proof (length_concat_ge Hne) as Hle. rewrite Hcat in Hle.
  apply Nat2Z.inj_le. eapply Nat.le_trans; [exact Hle|].
  apply filter_length_le.
Qed.

(** ** The question handler, again *)

Section HandlerResults.
Context {L : Lowercase}.
Variable qa_pipeline : str -> str -> outcome str.

Lemma strip_not_nil (s : str) : str_eqb (strip s) [] = false <-> strip s <> [].
Proof.
  split.
  - intros H E. apply str_eqb_eq in E. congruence.
  - apply str_eqb_neq.
Qed.

(** X7. A click on the button is answered with the missing-context message
    exactly when the caption shows zero words. *)
Theorem missing_context_iff_zero_words (context question : str) :
  on_ask qa_pipeline true context question = [st_error missing_context_message]
  <-> word_count context = 0.
Proof.
  assert (Hw : word_count context = 0 <-> strip context = []).
  { unfold word_count, split_whitespace. rewrite strip_nil_iff.
    pose proof (split_words_nil_iff context []) as Hn.
    destruct (split_words [] context) as [|w ws] eqn:E.
    - split; [intros _; now apply Hn | reflexivity].
    - split; [discriminate | intros Hb].
      assert (w :: ws = []) by (apply Hn; auto). discriminate. }
  rewrite Hw. unfold on_ask.
  destruct (str_eqb (strip context) []) eqn:Ec.
  - apply str_eqb_eq in Ec. tauto.
  - apply strip_not_nil in Ec. split; [|contradiction].
    destruct (str_eqb (strip question) []); discriminate.
Qed.

(** X8. The notice that the location was not found is shown exactly when
    the button was clicked, context and question are not blank, and the
    pipeline returned an answer whose lowercase does not occur in the
    lowercased context. *)
Theorem not_found_notice_iff (ask_button : bool) (context question : str) :
  In (st_info not_found_notice) (on_ask qa_pipeline ask_button context question)
  <-> ask_button = true /\ strip context <> [] /\ strip question <> []
      /\ exists a, qa_pipeline question context = Return a
                   /\ ~ substring (lower a) (lower context).
Proof.
  unfold on_ask. destruct ask_button.
  2:{ split; [intros [] | intros [H _]; discriminate]. }
  destruct (str_eqb (strip context) []) eqn:Ec.
  { apply str_eqb_eq in Ec. split.
    - intros [H|[]]. discriminate.
    - intros (_ & H & _). contradiction. }
  destruct (str_eqb (strip question) []) eqn:Eq.
  { apply str_eqb_eq in Eq. split.
    - intros [H|[]]. discriminate.
    - intros (_ & _ & H & _). contradiction. }
  apply strip_not_nil in Ec, Eq.
  destruct (qa_pipeline question context) as [a|e].
  - pose proof (locate_found_iff context a) as Hloc.
    destruct (locate context a) as [h|] eqn:El.
    + split.
      * intros [H|[H|[H|[]]]]; discriminate.
      * intros (_ & _ & _ & a' & Ha & Hno). injection Ha as <-.
        exfalso. apply Hno, Hloc. discriminate.
    + split.
      * intros _. repeat split; try assumption. exists a. split; [reflexivity|].
        intros Hs. apply Hloc in Hs. now apply Hs.
      * intros _. right. right. now left.
  - split.
    + intros [H|[H|[]]]; discriminate.
    + intros (_ & _ & _ & a & Ha & _). discriminate.
Qed.


End HandlerResults.

(** ** The highlighted excerpt *)

Lemma firstn_then_skipn {A : Type} (n m : nat) : forall l : list A,
  firstn n l ++ firstn m (skipn n l) = firstn (n + m) l.
Proof.
  induction n as [|n IH]; intros [|a l]; simpl; try reflexivity.
  - now rewrite firstn_nil.
  - now rewrite IH.
Qed.

(** Adjacent slices join. *)
Lemma slice_join (s : str) (a b c : Z) :
  0 <= a <= b -> b <= c ->
  slice s (Some a) (Some b) ++ slice s (Some b) (Some c) = slice s (Some a) (Some c).
Proof.
  intros Hab Hbc. rewrite !slice_between by lia.
  replace (Z.to_nat b) with (Z.to_nat (b - a) + Z.to_nat a)%nat by lia.
  rewrite <- skipn_skipn, firstn_then_skipn. f_equal. lia.
Qed.

Lemma slice_past_end (s : str) (a c : Z) :
  0 <= a -> len s <= c ->
  slice s (Some a) (Some c) = slice s (Some a) (Some (len s)).
Proof.
  intros Ha Hc. pose proof (len_nonneg s) as Hs.
  rewrite !slice_between by lia. unfold len in *.
  rewrite !firstn_all2; [reflexivity | |]; rewrite length_skipn; lia.
Qed.

Lemma slice_empty (s : str) (a c : Z) :
  0 <= c <= a -> slice s (Some a) (Some c) = [].
Proof.
  intros H. rewrite slice_between by lia.
  replace (Z.to_nat (c - a)) with 0%nat by lia. reflexivity.
Qed.

Lemma slice_whole (s : str) : slice s (Some 0) (Some (len s)) = s.
Proof.
  pose proof (len_nonneg s). rewrite slice_between by lia. simpl skipn.
  unfold len. apply firstn_all2. lia.
Qed.

Lemma occurs_at_bound (sub s : str) (i : nat) :
  occurs_at sub s i -> (i + length sub <= length s)%nat.
Proof.
  intros (pre & post & -> & <-). rewrite !length_app. lia.
Qed.

Section ExcerptResults.
Context {L : Lowercase}.

(** The three slices the locator takes make up the window. *)
Lemma window_parts (context : str) (s n : Z) :
  0 <= s -> 0 <= n ->
  slice context (Some (Z.max 0 (s - 100))) (Some s)
  ++ slice context (Some s) (Some (s + n))
  ++ slice context (Some (s + n)) (Some (Z.min (len context) (s + n + 100)))
  = slice context (Some (Z.max 0 (s - 100)))
                  (Some (Z.min (len context) (s + n + 100))).
Proof.
  intros Hs Hn. pose proof (len_nonneg context) as Hc.
  destruct (Z.le_gt_cases (s + n) (len context)) as [He|He].
  - rewrite (@slice_join context s) by lia. apply slice_join; lia.
  - rewrite (Z.min_l (len context)) by lia.
    rewrite (@slice_empty context (s + n)) by lia. rewrite app_nil_r.
    rewrite slice_join by lia. apply slice_past_end; lia.
Qed.

(** X10. When the answer is found, what is shown before, as and after the
    highlighted answer, leaving the "..." aside, is one contiguous excerpt
    of the context: the window [context[windowStart:windowEnd]]. *)
Theorem highlight_is_an_excerpt (context ans : str) :
  let s := answer_start context ans in
  let windowStart := Z.max 0 (s - 100) in
  let windowEnd := Z.min (len context) (s + len ans + 100) in
  s <> -1 ->
  exists h b a,
    locate context ans = Some h
    /\ before h = (if windowStart >? 0 then lit "..." else []) ++ b
    /\ after h = a ++ (if windowEnd <? len context then lit "..." else [])
    /\ b ++ answer h ++ a = slice context (Some windowStart) (Some windowEnd).
Proof.
  intros s windowStart windowEnd Hs.
  pose proof (answer_start_ge context ans Hs) as Hge. fold s in Hge.
  rewrite (locate_found context ans Hs). cbv zeta. fold s windowStart windowEnd.
  eexists. eexists. eexists. split; [reflexivity|]. simpl.
  split; [reflexivity|]. split; [reflexivity|].
  apply window_parts; [assumption | apply len_nonneg].
Qed.

(** X11. For a context of at most 100 characters whose lowercase is also at
    most 100 characters long, a found answer is shown with the whole
    context around it and no "...": before, answer and after put together
    are the context. *)
Theorem short_context_shown_whole (context ans : str) (h : Highlight) :
  len context <= 100 ->
  len (lower context) <= 100 ->
  locate context ans = Some h ->
  before h ++ answer h ++ after h = context.
Proof.
  intros Hc Hl Hloc.
  assert (Hs : answer_start context ans <> -1).
  { intros E. unfold locate in Hloc. rewrite E in Hloc. discriminate. }
  destruct (answer_start_leftmost context ans Hs) as (i & Hi & Hocc & _).
  apply occurs_at_bound in Hocc.
  pose proof (len_nonneg ans) as Ha. pose proof (len_nonneg context) as Hn.
  rewrite (locate_found context ans Hs) in Hloc. cbv zeta in Hloc.
  injection Hloc as <-. simpl. rewrite Hi.
  assert (Hi100 : Z.of_nat i <= 100) by (unfold len in Hl; lia).
  pose proof (@window_parts context (Z.of_nat i) (len ans)) as Hw.
  rewrite (Z.max_l 0) in * by lia.
  rewrite (Z.min_l (len context)) in * by lia.
  change (0 >? 0) with false. rewrite Z.ltb_irrefl, app_nil_r. simpl app at 1.
  rewrite Hw by lia. apply slice_whole.
Qed.

End ExcerptResults.

Lemma short_context_shown_whole_witness :
  exists h,
    @locate sample_Lowercase (lit "Paris is the capital.") (lit "paris") = Some h
    /\ before h ++ answer h ++ after h = lit "Paris is the capital.".
Proof.
  eexists. split; [reflexivity|].
  apply (@short_context_shown_whole sample_Lowercase
           (lit "Paris is the capital.") (lit "paris"));
    [vm_compute; discriminate | vm_compute; discriminate | reflexivity].
Defined.

Lemma highlight_is_an_excerpt_witness :
  exists h b a,
    @locate sample_Lowercase (lit "Paris is the capital.") (lit "CAPITAL") = Some h
    /\ b ++ answer h ++ a = lit "Paris is the capital.".
Proof.
  destruct (@highlight_is_an_excerpt sample_Lowercase
              (lit "Paris is the capital.") (lit "CAPITAL"))
    as (h & b & a & Hloc & _ & _ & Hw).
  - vm_compute. discriminate.
  - exists h, b, a. split; [exact Hloc | exact Hw].
Defined.

(** ** Answers that are in the context: ASCII text *)

Section AsciiResults.
Context {L : Lowercase}.

Lemma lower_ascii_substring (context ans : str) :
  forallb is_ascii context = true ->
  forallb is_ascii ans = true ->
  substring ans context -> substring (lower ans) (lower context).
Proof.
  intros Hc Ha (i & pre & post & E & Hl).
  rewrite (lower_ascii context Hc), (lower_ascii ans Ha). subst context.
  exists i, (map ascii_lower pre), (map ascii_lower post).
  rewrite !map_app, length_map. auto.
Qed.

(** X12. In an ASCII context, an ASCII answer that occurs in it is always
    found, and the highlighted text is a piece of the context that has the
    length of the answer and equals it up to case. *)
Theorem ascii_answer_is_highlighted (context ans : str) :
  forallb is_ascii context = true ->
  forallb is_ascii ans = true ->
  substring ans context ->
  exists h,
    locate context ans = Some h
    /\ substring (answer h) context
    /\ len (answer h) = len ans
    /\ lower (answer h) = lower ans.
Proof.
  intros Hc Ha Hsub.
  pose proof (lower_ascii_substring Hc Ha Hsub) as Hlow.
  apply locate_found_iff in Hlow.
  destruct (locate context ans) as [h|] eqn:Hloc; [|contradiction].
  exists h. split; [reflexivity|].
  pose proof (locate_ascii_slice context ans Hc Ha Hloc) as Hcase.
  assert (Hs : answer_start context ans <> -1).
  { intros E. unfold locate in Hloc. rewrite E in Hloc. discriminate. }
  destruct (answer_start_leftmost context ans Hs) as (i & Hi & Hocc & _).
  apply occurs_at_bound in Hocc.
  rewrite (lower_ascii context Hc), (lower_ascii ans Ha), !length_map in Hocc.
  rewrite (locate_found context ans Hs) in Hloc. cbv zeta in Hloc.
  injection Hloc as <-. cbn [answer] in *.
  rewrite Hi, slice_between in * by (pose proof (len_nonneg ans); lia).
  replace (Z.to_nat (Z.of_nat i + len ans - Z.of_nat i)) with (length ans) in *
    by (unfold len; lia).
  rewrite Nat2Z.id in *. split; [|split; [|assumption]].
  - exists i, (firstn i context), (skipn (length ans) (skipn i context)).
    rewrite firstn_skipn, firstn_skipn. split; [reflexivity|].
    rewrite length_firstn. lia.
  - unfold len. rewrite length_firstn, length_skipn. lia.
Qed.

End AsciiResults.

Lemma ascii_answer_is_highlighted_witness :
  exists h,
    @locate sample_Lowercase (lit "Paris is the capital.") (lit "capital") = Some h
    /\ len (answer h) = 7.
Proof.
  destruct (@ascii_answer_is_highlighted sample_Lowercase
              (lit "Paris is the capital.") (lit "capital"))
    as (h & Hloc & _ & Hlen & _).
  - reflexivity.
  - reflexivity.
  - exists 13%nat, (lit "Paris is the "), (lit "."). split; reflexivity.
  - exists h. split; [exact Hloc | exact Hlen].
Defined.

(** ** File names, again *)

Section NameResults.
Context {L : Lowercase} {D : Decoders}.

(** X13. A name whose part after the last '.' is ASCII and, in lowercase,
    none of pdf, docx and txt is rejected with the fixed message; so is
    every name that ends in '.'. *)
Theorem other_names_are_unsupported (stem ext : str) (file : bytes) :
  (~ In 46%N ext ->
   forallb is_ascii ext = true ->
   ~ In (map ascii_lower ext) [lit "pdf"; lit "docx"; lit "txt"] ->
   process_uploaded_file (stem ++ 46%N :: ext) file = Return unsupported_message)
  /\ process_uploaded_file (stem ++ lit ".") file = Return unsupported_message.
Proof.
  assert (H : ~ In 46%N ext -> forallb is_ascii ext = true ->
              ~ In (map ascii_lower ext) [lit "pdf"; lit "docx"; lit "txt"] ->
              process_uploaded_file (stem ++ 46%N :: ext) file
              = Return unsupported_message).
  { intros Hdot Hascii Hnot. unfold process_uploaded_file, file_extension.
    rewrite last_item_split_suffix by assumption. cbn [bind].
    rewrite lower_ascii by assumption.
    rewrite !str_eqb_neq; [reflexivity | | |];
      intros E; apply Hnot; rewrite E; simpl; auto. }
  split; [exact H|].
  unfold process_uploaded_file, file_extension.
  change (lit ".") with [46%N].
  rewrite last_item_split_suffix by (intros []). cbn [bind].
  rewrite lower_ascii by reflexivity. reflexivity.
Qed.

End NameResults.

Lemma other_names_are_unsupported_witness :
  @process_uploaded_file sample_Lowercase sample_Decoders (lit "notes.TXT.bak") []
  = Return unsupported_message.
Proof.
  destruct (@other_names_are_unsupported sample_Lowercase sample_Decoders
              (lit "notes.TXT") (lit "bak") []) as (H & _).
  apply H.
  - vm_compute. intuition discriminate.
  - reflexivity.
  - vm_compute. intuition discriminate.
Defined.

(** ** One run of the script *)

Lemma truncate_text_head (c : char) (s : str) (max_length : Z) :
  0 < max_length -> exists r, truncate_text (c :: s) max_length = c :: r.
Proof.
  intros Hm. unfold truncate_text. destruct (len (c :: s) >? max_length).
  - rewrite slice_to by lia.
    destruct (Z.to_nat max_length) as [|k] eqn:E; [lia|]. simpl. eauto.
  - eauto.
Qed.

Lemma strip_head_not_nil (c : char) (s : str) :
  isspace c = false -> strip (c :: s) <> [].
Proof.
  intros Hc E. apply strip_nil_iff in E. simpl in E. rewrite Hc in E. discriminate.
Qed.

Section ScriptResults.
Context {L : Lowercase} {D : Decoders}.
Variable qa_pipeline : str -> str -> outcome str.

(** What a file of a supported format yields when it cannot be decoded. *)
Lemma process_uploaded_file_error (name : str) (file : bytes) (e : str) :
  (file_extension name = Return (lit "pdf") ->
   document_fault (PdfReader_pages file) e ->
   process_uploaded_file name file = Return (lit "Error reading PDF: " ++ e))
  /\ (file_extension name = Return (lit "docx") ->
      document_fault (Document_paragraphs file) e ->
      process_uploaded_file name file = Return (lit "Error reading DOCX: " ++ e))
  /\ (file_extension name = Return (lit "txt") ->
      decode_utf8 file = Raise e ->
      process_uploaded_file name file = Return (lit "Error reading TXT: " ++ e)).
Proof.
  unfold process_uploaded_file. split; [|split]; intros -> H; cbn [bind].
  - apply document_raises in H.
    change (str_eqb (lit "pdf") (lit "pdf")) with true. cbv iota.
    unfold extract_text_from_pdf, pdf_body. now rewrite H.
  - apply document_raises in H.
    change (str_eqb (lit "docx") (lit "pdf")) with false.
    change (str_eqb (lit "docx") (lit "docx")) with true. cbv iota.
    unfold extract_text_from_docx, docx_body. now rewrite H.
  - change (str_eqb (lit "txt") (lit "pdf")) with false.
    change (str_eqb (lit "txt") (lit "docx")) with false.
    change (str_eqb (lit "txt") (lit "txt")) with true. cbv iota.
    unfold extract_text_from_txt, txt_body. now rewrite H.
Qed.

(** A run on an uploaded file whose extracted text starts with a character
    that is not whitespace calls the pipeline when the question is not
    blank, with the stored context. *)
Lemma script_run_asks (session_context name : str) (file : bytes)
    (c : char) (text question : str) :
  process_uploaded_file name file = Return (c :: text) ->
  isspace c = false ->
  strip question <> [] ->
  exists rest,
    script_run qa_pipeline session_context (UploadFile (Some (name, file))) question true
    = Return (truncate_text (c :: text) 5000,
              oracle_call question (truncate_text (c :: text) 5000) :: rest).
Proof.
  intros Hp Hc Hq. unfold script_run, input_section, on_upload.
  rewrite Hp. cbn [bind]. unfold on_ask.
  destruct (@truncate_text_head c text 5000) as [r Hr]; [lia|].
  rewrite (str_eqb_neq (a := strip (truncate_text (c :: text) 5000)))
    by (rewrite Hr; now apply strip_head_not_nil).
  rewrite (str_eqb_neq Hq). eauto.
Qed.

(** X14. When an uploaded PDF, DOCX or TXT file cannot be decoded, the
    message "Error reading <FORMAT>: e" is what the session keeps as the
    context, and a question asked next is sent to the pipeline with that
    message as the context. *)
Theorem failed_upload_is_the_context
    (session_context name : str) (file : bytes) (e question : str) :
  strip question <> [] ->
  (file_extension name = Return (lit "pdf") ->
   document_fault (PdfReader_pages file) e ->
   let context := truncate_text (lit "Error reading PDF: " ++ e) 5000 in
   exists rest,
     script_run qa_pipeline session_context (UploadFile (Some (name, file))) question true
     = Return (context, oracle_call question context :: rest))
  /\ (file_extension name = Return (lit "docx") ->
      document_fault (Document_paragraphs file) e ->
      let context := truncate_text (lit "Error reading DOCX: " ++ e) 5000 in
      exists rest,
        script_run qa_pipeline session_context (UploadFile (Some (name, file))) question true
        = Return (context, oracle_call question context :: rest))
  /\ (file_extension name = Return (lit "txt") ->
      decode_utf8 file = Raise e ->
      let context := truncate_text (lit "Error reading TXT: " ++ e) 5000 in
      exists rest,
        script_run qa_pipeline session_context (UploadFile (Some (name, file))) question true
        = Return (context, oracle_call question context :: rest)).
Proof.
  intros Hq. destruct (process_uploaded_file_error name file e) as (Hpdf & Hdocx & Htxt).
  split; [|split]; intros Hext Hfault; cbv zeta.
  - apply script_run_asks; [now apply Hpdf | reflexivity | assumption].
  - apply script_run_asks; [now apply Hdocx | reflexivity | assumption].
  - apply script_run_asks; [now apply Htxt | reflexivity | assumption].
Qed.

(** X15. When an uploaded file is extracted as the empty string (a blank
    text file, a PDF whose pages hold no text), the stored context is
    empty and a click on the button gets the missing-context message
    without any call to the pipeline. *)
Theorem blank_upload_asks_for_context
    (session_context name : str) (file : bytes) (question : str) :
  (file_extension name = Return (lit "txt") ->
   (exists text, decode_utf8 file = Return text /\ forallb isspace text = true) ->
   script_run qa_pipeline session_context (UploadFile (Some (name, file))) question true
   = Return ([], [st_error missing_context_message]))
  /\ (file_extension name = Return (lit "pdf") ->
      (exists texts, PdfReader_pages file = Return (map Return texts)
                     /\ Forall (fun t => forallb isspace t = true) texts) ->
      script_run qa_pipeline session_context (UploadFile (Some (name, file))) question true
      = Return ([], [st_error missing_context_message])).
Proof.
  assert (Hrun : process_uploaded_file name file = Return [] ->
            script_run qa_pipeline session_context (UploadFile (Some (name, file)))
              question true
            = Return ([], [st_error missing_context_message])).
  { intros Hp. unfold script_run, input_section, on_upload. rewrite Hp. reflexivity. }
  split.
  - intros Hext (text & Hdec & Hb). apply Hrun.
    unfold process_uploaded_file. rewrite Hext. cbn [bind].
    change (str_eqb (lit "txt") (lit "pdf")) with false.
    change (str_eqb (lit "txt") (lit "docx")) with false.
    change (str_eqb (lit "txt") (lit "txt")) with true. cbv iota.
    unfold extract_text_from_txt, txt_body. rewrite Hdec. cbn [bind try_except].
    now rewrite strip_blank.
  - intros Hext (texts & Hopen & Hb). apply Hrun.
    unfold process_uploaded_file. rewrite Hext. cbn [bind].
    change (str_eqb (lit "pdf") (lit "pdf")) with true. cbv iota.
    unfold extract_text_from_pdf, pdf_body. rewrite (document_read texts Hopen).
    cbn [try_except]. now rewrite strip_blank by now apply lines_of_blank.
Qed.

End ScriptResults.

(** ** What an upload leaves in the session *)

Lemma trimmed_no_leading_space (t : str) : trimmed t = true -> no_leading_space t = true.
Proof. unfold trimmed. intros H. apply andb_true_iff in H. apply H. Qed.

Lemma strip_no_leading_space (s : str) : no_leading_space (strip s) = true.
Proof.
  destruct (strip_split s) as (_ & _ & _ & _ & _ & H).
  now apply trimmed_no_leading_space.
Qed.

Lemma truncate_text_no_leading_space (s : str) :
  no_leading_space s = true -> no_leading_space (truncate_text s 5000) = true.
Proof.
  destruct s as [|c s]; [reflexivity|]. intros H.
  destruct (@truncate_text_head c s 5000) as [r ->]; [lia | exact H].
Qed.

Section UploadResults.
Context {L : Lowercase} {D : Decoders}.

Lemma try_except_no_leading_space (body : outcome str) (c : char) (prefix : str) :
  isspace c = false ->
  (forall t, body = Return t -> no_leading_space t = true) ->
  exists s, try_except body (fun e => Return ((c :: prefix) ++ e)) = Return s
            /\ no_leading_space s = true.
Proof.
  intros Hc Hb. destruct body as [t|e]; simpl.
  - exists t. split; [reflexivity | now apply Hb].
  - eexists. split; [reflexivity|]. simpl. now rewrite Hc.
Qed.

Lemma document_no_leading_space (opened : outcome (list (outcome str))) (t : str) :
  (items <- opened ;; text <- append_lines [] items ;; Return (strip text)) = Return t ->
  no_leading_space t = true.
Proof.
  destruct opened as [items|e]; simpl; [|discriminate].
  destruct (append_lines [] items) as [text|e]; simpl; [|discriminate].
  intros H. injection H as <-. apply strip_no_leading_space.
Qed.

(** X16. Whatever is uploaded, the context stored afterwards is empty or
    starts with a character that is not whitespace: extracted text is
    trimmed, the messages start with a letter, and truncation keeps the
    beginning of the text. *)
Theorem uploaded_context_has_no_leading_space (name : str) (file : bytes) :
  exists context,
    on_upload name file = Return context /\ no_leading_space context = true.
Proof.
  unfold on_upload.
  assert (H : exists s, process_uploaded_file name file = Return s
                        /\ no_leading_space s = true).
  { unfold process_uploaded_file.
    destruct (file_extension_returns name) as [ext ->]. cbn [bind].
    destruct (str_eqb ext (lit "pdf")).
    { apply (@try_except_no_leading_space _ 69%N); [reflexivity|].
      apply document_no_leading_space. }
    destruct (str_eqb ext (lit "docx")).
    { apply (@try_except_no_leading_space _ 69%N); [reflexivity|].
      apply document_no_leading_space. }
    destruct (str_eqb ext (lit "txt")).
    { apply (@try_except_no_leading_space _ 69%N); [reflexivity|].
      unfold txt_body. intros t. destruct (decode_utf8 file); simpl; [|discriminate].
      intros E. injection E as <-. apply strip_no_leading_space. }
    exists unsupported_message. split; reflexivity. }
  destruct H as (s & -> & Hs). cbn [bind]. eexists. split; [reflexivity|].
  now apply truncate_text_no_leading_space.
Qed.

End UploadResults.

(** ** These statements at concrete inputs *)

Lemma extraction_joins_in_order_witness :
  @extract_text_from_pdf sample_Decoders [Byte.x68; Byte.x69]
  = Return (strip (lines_of [lit "hi"])).
Proof.
  destruct (@extraction_joins_in_order sample_Decoders [Byte.x68; Byte.x69] [lit "hi"])
    as (H & _).
  apply H. reflexivity.
Defined.

Lemma txt_extraction_trims_only_witness :
  exists l t r,
    @extract_text_from_txt sample_Decoders [Byte.x20; Byte.x68; Byte.x69; Byte.x0a]
    = Return t
    /\ lit " hi" ++ [10%N] = l ++ t ++ r.
Proof.
  destruct (@txt_extraction_trims_only sample_Decoders
              [Byte.x20; Byte.x68; Byte.x69; Byte.x0a] (lit " hi" ++ [10%N]))
    as (l & t & r & Ht & Hs & _).
  - reflexivity.
  - exists l, t, r. split; [exact Ht | exact Hs].
Defined.

Lemma blank_document_extracts_empty_witness :
  @extract_text_from_txt sample_Decoders [Byte.x20; Byte.x0a] = Return [].
Proof.
  destruct (@blank_document_extracts_empty sample_Decoders [Byte.x20; Byte.x0a])
    as (_ & _ & H).
  apply (H (lit " " ++ [10%N])); reflexivity.
Defined.


Lemma failed_upload_is_the_context_witness :
  exists rest,
    @script_run sample_Lowercase sample_Decoders sample_pipeline
      [] (UploadFile (Some (lit "scan.pdf", []))) (lit "Who?") true
    = Return (lit "Error reading PDF: Cannot read an empty file",
              oracle_call (lit "Who?") (lit "Error reading PDF: Cannot read an empty file")
              :: rest).
Proof.
  destruct (@failed_upload_is_the_context sample_Lowercase sample_Decoders
              sample_pipeline [] (lit "scan.pdf") []
              (lit "Cannot read an empty file") (lit "Who?")) as (H & _).
  - vm_compute. discriminate.
  - apply H; [reflexivity | left; reflexivity].
Defined.

Lemma blank_upload_asks_for_context_witness :
  @script_run sample_Lowercase sample_Decoders sample_pipeline
    (lit "old") (UploadFile (Some (lit "empty.txt", []))) (lit "Who?") true
  = Return ([], [st_error missing_context_message]).
Proof.
  destruct (@blank_upload_asks_for_context sample_Lowercase sample_Decoders
              sample_pipeline (lit "old") (lit "empty.txt") [] (lit "Who?")) as (H & _).
  apply H; [reflexivity | exists []; split; reflexivity].
Defined.
